(** * ytdlp-service: the fallback extraction engine of [main.py]

    A shallow embedding of [extract_video] (src/ytdlp-service/main.py):
    the strategy catalog [player_configs], the construction of the yt-dlp
    command line, the classification of one attempt and the retry loop
    with its final error synthesis.

    Conventions of the embedding.
    - A Python [str] is a Rocq [string]; one [ascii] stands for one
      character, so process output is taken in the 8-bit range.  The three
      characters of the remediation text beyond that range are written by
      their UTF-8 bytes; nothing looks inside them.
    - What the function obtains from outside (environment variable, file
      system, subprocess, json decoder, response constructor) is a field
      of [Env].  [subprocess_run] also receives the number of the call
      within the request, so that two calls with equal arguments may
      answer differently.
    - Python exceptions are values of [exn] carried by the error monad
      [result]; [try ... except] is [catch] or a [match] on the raised
      value.
    - Logging has no effect on the result and is left out, but the
      expressions evaluated for a log line are kept when they can raise
      ([data.get]). *)

From Stdlib Require Import String Ascii List ZArith Lia Bool Arith.
Import ListNotations.
Open Scope string_scope.

Set Implicit Arguments.
Set Warnings "-register-all".

(* ================================================================= *)
(** ** Python strings *)

Module PyStr.

(** Truth value of a [str]: empty is false. *)
Definition truthy (s : string) : bool :=
  match s with
  | EmptyString => false
  | String _ _ => true
  end.

(** [a or b] on strings. *)
Definition or_else (a b : string) : string :=
  if truthy a then a else b.

(** [s.startswith(p)]. *)
Fixpoint startswith (p s : string) : bool :=
  match p, s with
  | EmptyString, _ => true
  | String _ _, EmptyString => false
  | String a p', String b s' => Ascii.eqb a b && startswith p' s'
  end.

(** [needle in hay]. *)
Fixpoint contains (needle hay : string) : bool :=
  startswith needle hay ||
  match hay with
  | EmptyString => false
  | String _ hay' => contains needle hay'
  end.

(** [s[:n]]. *)
Fixpoint take (n : nat) (s : string) : string :=
  match n, s with
  | O, _ => EmptyString
  | S _, EmptyString => EmptyString
  | S n', String c s' => String c (take n' s')
  end.

(** [c.lower()] on the 8-bit range: A-Z, and the Latin-1 capitals
    (192..222 without the multiplication sign 215), move up by 32. *)
Definition lower_char (c : ascii) : ascii :=
  let n := nat_of_ascii c in
  if (((65 <=? n) && (n <=? 90)) ||
      ((192 <=? n) && (n <=? 222) && negb (n =? 215)))%nat
  then ascii_of_nat (n + 32)
  else c.

(** [s.lower()]. *)
Fixpoint lower (s : string) : string :=
  match s with
  | EmptyString => EmptyString
  | String c s' => String (lower_char c) (lower s')
  end.

Definition LF : string := String (ascii_of_nat 10) EmptyString.

End PyStr.

(* ================================================================= *)
(** ** Exceptions and the error monad *)

(** The subclasses of [Exception] the handlers of [extract_video] tell
    apart; [OtherException] stands for all the rest.  [str(e)] of the last
    two is their [msg]. *)
Inductive exn : Type :=
| TimeoutExpired
| JSONDecodeError (msg : string)
| OtherException (msg : string).

Inductive result (A : Type) : Type :=
| Ret (a : A)
| Raise (e : exn).

Arguments Ret {A} a.
Arguments Raise {A} e.

Definition bind {A B : Type} (c : result A) (k : A -> result B) : result B :=
  match c with
  | Ret a => k a
  | Raise e => Raise e
  end.

Definition catch {A : Type} (c : result A) (h : exn -> result A) : result A :=
  match c with
  | Ret a => Ret a
  | Raise e => h e
  end.

Notation "x <- c ;; k" := (bind c (fun x => k))
  (at level 61, c at next level, right associativity).

(* ================================================================= *)
(** ** Data *)

(** What [json.loads] returns. *)
Inductive json : Type :=
| JNone
| JBool (b : bool)
| JInt (n : Z)
| JFloat (repr : string)
| JStr (s : string)
| JList (items : list json)
| JDict (items : list (string * json)).

Definition type_name (v : json) : string :=
  match v with
  | JNone => "NoneType"
  | JBool _ => "bool"
  | JInt _ => "int"
  | JFloat _ => "float"
  | JStr _ => "str"
  | JList _ => "list"
  | JDict _ => "dict"
  end.

Fixpoint lookup (key : string) (items : list (string * json)) : option json :=
  match items with
  | [] => None
  | (k, v) :: rest => if String.eqb k key then Some v else lookup key rest
  end.

(** [data.get(key, default)]: only a dict has the method.  The value is
    used for a log line only, so the order of [items] does not matter. *)
Definition py_get (data : json) (key : string) (default : json) : result json :=
  match data with
  | JDict items =>
      Ret (match lookup key items with Some v => v | None => default end)
  | _ =>
      Raise (OtherException
               ("'" ++ type_name data ++ "' object has no attribute 'get'"))
  end.

(** [subprocess.CompletedProcess] with [capture_output=True, text=True]. *)
Record CompletedProcess : Type := {
  returncode : Z;
  stdout : string;
  stderr : string
}.

(** One entry of [player_configs]: [(client_type, skip_type, additional_args)]. *)
Record Strategy : Type := {
  client_type : string;
  skip_type : option string;
  additional_args : list string
}.

Definition player_configs : list Strategy :=
  [ {| client_type := "web";     skip_type := Some "webpage"; additional_args := [] |};
    {| client_type := "web";     skip_type := None;           additional_args := [] |};
    {| client_type := "ios";     skip_type := None;           additional_args := [] |};
    {| client_type := "android"; skip_type := None;           additional_args := [] |};
    {| client_type := "mweb";    skip_type := None;           additional_args := [] |} ].

(** The arguments of one [subprocess.run] call that vary or matter here. *)
Record Invocation : Type := {
  args : list string;
  timeout : Z
}.

(** The branch of the loop body an attempt left through.  The source keeps
    only the message; the category names the branch. *)
Inductive Category : Type :=
| parse_error
| bot_detection
| unsupported_content
| timed_out
| other.

Record Diagnostic : Type := {
  strategy_label : string;
  category : Category;
  message : string
}.

(** The world as one request sees it. *)
Record Env (Response : Type) : Type := {
  sys_executable : string;
  os_getenv : string -> option string;
  os_path_exists : string -> bool;
  subprocess_run : nat -> list string -> Z -> result CompletedProcess;
  json_loads : string -> result json;
  JSONResponse : json -> result Response
}.

(** How an attempt ends: [return JSONResponse(...)] or [continue] after
    assigning [last_error]. *)
Inductive Outcome (Response : Type) : Type :=
| SUCCESS (r : Response)
| Continue (d : Diagnostic).

Arguments SUCCESS {Response} r.
Arguments Continue {Response} d.

(** How the request ends. *)
Inductive ExtractionResult (Response : Type) : Type :=
| Returned (r : Response)
| HTTPException (status_code : Z) (detail : string).

Arguments Returned {Response} r.
Arguments HTTPException {Response} status_code detail.

(* ================================================================= *)
(** ** The engine *)

Import PyStr.

Definition USER_AGENT : string :=
  "Mozilla/5.0 (Windows NT 10.0; Win64; x64) AppleWebKit/537.36 (KHTML, like Gecko) Chrome/120.0.0.0 Safari/537.36".

Definition REFERER : string := "Referer:https://www.youtube.com/".

Definition COOKIES_ENV : string := "YTDLP_COOKIES_FILE".

Definition FALLBACK : string := "All YouTube client types failed".

(** The replacement text of lines 196-206.  The warning sign (U+26A0,
    U+FE0F) and the two arrows (U+2192) are given by their UTF-8 bytes. *)
Definition REMEDIATION : string :=
  "YouTube bot detection: All client types were blocked." ++ LF ++ LF ++
  "⚠️ COOKIES ARE REQUIRED: YouTube now requires browser cookies for most video extractions." ++ LF ++ LF ++
  "To fix this:" ++ LF ++
  "1. Install 'Get cookies.txt LOCALLY' extension in Chrome/Edge" ++ LF ++
  "2. Visit youtube.com and sign in" ++ LF ++
  "3. Click the extension → Export → Save as cookies.txt" ++ LF ++
  "4. Upload cookies.txt to your deployment platform" ++ LF ++
  "5. Set YTDLP_COOKIES_FILE environment variable to the file path" ++ LF ++ LF ++
  "See ytdlp-service/COOKIES_SETUP.md for detailed instructions.".

(** Truth value of [skip_type]: [None] and the empty string are false. *)
Definition skip_given (skip : option string) : option string :=
  match skip with
  | Some k => if truthy k then Some k else None
  | None => None
  end.

(** Line 99. *)
Definition config_name (s : Strategy) : string :=
  client_type s ++
  match skip_given (skip_type s) with
  | Some k => " (skip: " ++ k ++ ")"
  | None => ""
  end.

(** Lines 103-139: the command line for one strategy.  [cookies] is
    [Some cookies_file] when [use_cookies] is true and [None] otherwise. *)
Definition build_args (executable : string) (cookies : option string)
    (video_url : string) (s : Strategy) : list string :=
  [ executable; "-m"; "yt_dlp";
    "--dump-json";
    "--no-warnings";
    "--no-playlist";
    "--user-agent"; USER_AGENT;
    "--extractor-args"; "youtube:player_client=" ++ client_type s ]
  ++ match skip_given (skip_type s) with
     | Some k => [ "--extractor-args"; "youtube:player_skip=" ++ k ]
     | None => []
     end
  ++ [ "--extractor-args"; "youtube:player_params=8AEB";
       "--extractor-args"; "youtube:include_live_chat=false";
       "--extractor-args"; "youtube:skip=dash,translated_subs" ]
  ++ [ "--add-header"; REFERER ]
  ++ additional_args s
  ++ match cookies with
     | Some cookies_file => [ "--cookies"; cookies_file ]
     | None => []
     end
  ++ [ video_url ].

(** Lines 165-179: a completed process with a non-zero exit status. *)
Definition classify_failure (name : string) (r : CompletedProcess) : Diagnostic :=
  let error_msg := or_else (stderr r) (or_else (stdout r) "Unknown error") in
  if contains "Sign in to confirm" error_msg || contains "not a bot" error_msg then
    {| strategy_label := name; category := bot_detection;
       message := "YouTube bot detection (tried " ++ name ++ ")" |}
  else if contains "not available on this app" error_msg
          || contains "Watch on the latest version" error_msg then
    {| strategy_label := name; category := unsupported_content;
       message := "Content not available for " ++ name ++ ": " ++ take 200 error_msg |}
  else
    {| strategy_label := name; category := other;
       message := take 500 error_msg |}.

(** Lines 191-211: the detail of the final [HTTPException]. *)
Definition matches_bot_pattern (error_detail : string) : bool :=
  contains "bot" (lower error_detail) || contains "Sign in" error_detail.

Definition final_detail (last_error : option string) : string :=
  let error_detail :=
    match last_error with
    | Some e => or_else e FALLBACK
    | None => FALLBACK
    end in
  let error_detail :=
    if matches_bot_pattern error_detail then REMEDIATION else error_detail in
  "yt-dlp extraction failed: " ++ error_detail.

(** The variables of the loop: [last_error] is the only one the source
    has; the two lists record what happened, in order. *)
Record LoopState : Type := {
  last_error : option string;
  invocations : list Invocation;
  diagnostics : list Diagnostic
}.

Definition initial_state : LoopState :=
  {| last_error := None; invocations := []; diagnostics := [] |}.

Definition invoked (i : Invocation) (st : LoopState) : LoopState :=
  {| last_error := last_error st;
     invocations := invocations st ++ [i];
     diagnostics := diagnostics st |}.

Definition retained (d : Diagnostic) (st : LoopState) : LoopState :=
  {| last_error := Some (message d);
     invocations := invocations st;
     diagnostics := diagnostics st ++ [d] |}.

(** What one request leaves behind. *)
Record Run (Response : Type) : Type := {
  outcome : ExtractionResult Response;
  path_checks : list string;
  final_state : LoopState
}.

Section Engine.

Context {Response : Type}.
Variable E : Env Response.

(** Lines 90-91: [cookies_file and os.path.exists(cookies_file)].  The
    second component lists the paths handed to [os.path.exists]. *)
Definition use_cookies : option string * list string :=
  match os_getenv E COOKIES_ENV with
  | None => (None, [])
  | Some cookies_file =>
      if truthy cookies_file
      then ((if os_path_exists E cookies_file then Some cookies_file else None),
            [cookies_file])
      else (None, [])
  end.

Section Request.

Variable cookies : option string.
Variable video_url : string.

Definition invocation_of (s : Strategy) : Invocation :=
  {| args := build_args (sys_executable E) cookies video_url s;
     timeout := 60 |}.

(** Lines 144-179: the body of the outer [try]. *)
Definition try_body (call_no : nat) (s : Strategy) : result (Outcome Response) :=
  let inv := invocation_of s in
  r <- subprocess_run E call_no (args inv) (timeout inv) ;;
  if (returncode r =? 0)%Z then
    catch
      (data <- json_loads E (stdout r) ;;
       _ <- py_get data "title" (JStr "Unknown") ;;
       resp <- JSONResponse E data ;;
       Ret (SUCCESS resp))
      (fun e =>
         match e with
         | JSONDecodeError msg =>
             Ret (Continue
                    {| strategy_label := config_name s;
                       category := parse_error;
                       message := "Failed to parse yt-dlp output: " ++ msg |})
         | _ => Raise e
         end)
  else
    Ret (Continue (classify_failure (config_name s) r)).

(** Lines 101-188: one iteration, with the two outer handlers. *)
Definition attempt (call_no : nat) (s : Strategy) : Outcome Response :=
  match try_body call_no s with
  | Ret o => o
  | Raise TimeoutExpired =>
      Continue {| strategy_label := config_name s;
                  category := timed_out;
                  message := "Video extraction timed out" |}
  | Raise (JSONDecodeError msg)
  | Raise (OtherException msg) =>
      Continue {| strategy_label := config_name s;
                  category := other;
                  message := msg |}
  end.

(** Lines 97-188: the [for] loop.  [Some r] is the early [return]. *)
Fixpoint try_clients (configs : list Strategy) (st : LoopState)
  : option Response * LoopState :=
  match configs with
  | [] => (None, st)
  | s :: rest =>
      let call_no := length (invocations st) in
      let st := invoked (invocation_of s) st in
      match attempt call_no s with
      | SUCCESS r => (Some r, st)
      | Continue d => try_clients rest (retained d st)
      end
  end.

End Request.

(** [extract_video] over any catalog. *)
Definition extract_with (configs : list Strategy) (video_url : string) : Run Response :=
  let cookies := fst use_cookies in
  let loop := try_clients cookies video_url configs initial_state in
  {| outcome :=
       match fst loop with
       | Some r => Returned r
       | None => HTTPException 500 (final_detail (last_error (snd loop)))
       end;
     path_checks := snd use_cookies;
     final_state := snd loop |}.

(** Lines 68-211. *)
Definition extract_video (video_url : string) : Run Response :=
  extract_with player_configs video_url.

(** The attempt and the invocation of strategy [s] within the request
    for [video_url]. *)
Definition attempt_of (video_url : string) (call_no : nat) (s : Strategy)
  : Outcome Response :=
  attempt (fst use_cookies) video_url call_no s.

Definition invocation_for (video_url : string) (s : Strategy) : Invocation :=
  invocation_of (fst use_cookies) video_url s.

End Engine.

Definition succeeded {Response : Type} (o : Outcome Response) : bool :=
  match o with
  | SUCCESS _ => true
  | Continue _ => false
  end.

Definition exhausted {Response : Type} (r : ExtractionResult Response) : bool :=
  match r with
  | Returned _ => false
  | HTTPException _ _ => true
  end.

(** [needle] occurs in [hay]. *)
Definition Substring (needle hay : string) : Prop :=
  exists before after, hay = before ++ needle ++ after.

(** [flag] directly followed by [value] on a command line. *)
Fixpoint has_option (flag value : string) (l : list string) : bool :=
  match l with
  | a :: ((b :: _) as rest) =>
      (String.eqb a flag && String.eqb b value) || has_option flag value rest
  | _ => false
  end.

(** The same world with [YTDLP_COOKIES_FILE] not set. *)
Definition unset_cookies {Response : Type} (E : Env Response) : Env Response :=
  {| sys_executable := sys_executable E;
     os_getenv := fun name => if String.eqb name COOKIES_ENV then None else os_getenv E name;
     os_path_exists := os_path_exists E;
     subprocess_run := subprocess_run E;
     json_loads := json_loads E;
     JSONResponse := JSONResponse E |}.

(* ================================================================= *)
(** ** Concrete worlds *)

Module Scenario.

Definition url : string := "https://www.youtube.com/watch?v=dQw4w9WgXcQ".

Definition completed (rc : Z) (out err : string) : CompletedProcess :=
  {| returncode := rc; stdout := out; stderr := err |}.

Definition DQ : string := String (ascii_of_nat 34) EmptyString.

Definition payload_text : string :=
  "{" ++ DQ ++ "title" ++ DQ ++ ": " ++ DQ ++ "Never Gonna Give You Up" ++ DQ ++ "}".

Definition payload : json := JDict [("title", JStr "Never Gonna Give You Up")].

(** A decoder that knows one document. *)
Definition loads (text : string) : result json :=
  if String.eqb text payload_text then Ret payload
  else Raise (JSONDecodeError "Expecting value: line 1 column 1 (char 0)").

(** A world whose [k]-th call answers [run k]; the response is the
    decoded content itself. *)
Definition world (cookies_file : option string) (present : bool)
    (run : nat -> result CompletedProcess) : Env json :=
  {| sys_executable := "/usr/local/bin/python3";
     os_getenv := fun name =>
       if String.eqb name COOKIES_ENV then cookies_file else None;
     os_path_exists := fun _ => present;
     subprocess_run := fun call_no _ _ => run call_no;
     json_loads := loads;
     JSONResponse := fun data => Ret data |}.

Definition ok : result CompletedProcess := Ret (completed 0 payload_text "").

Definition blocked : result CompletedProcess :=
  Ret (completed 1 "" "ERROR: [youtube] dQw4w9WgXcQ: Sign in to confirm you're not a bot").

Definition wrong_app : result CompletedProcess :=
  Ret (completed 1 "" "ERROR: [youtube] dQw4w9WgXcQ: The following content is not available on this app").

(** The first strategy answers at once. *)
Definition first_ok : Env json := world None false (fun _ => ok).

(** Four clients cannot play the content, [mweb] can. *)
Definition mweb_ok : Env json :=
  world None false (fun k => if (k <? 4)%nat then wrong_app else ok).

(** Every client is asked to sign in. *)
Definition all_blocked : Env json := world None false (fun _ => blocked).



(** The variable names a file that is not there. *)
Definition cookies_missing : Env json :=
  world (Some "/data/cookies.txt") false (fun _ => blocked).

(** The last call raises an exception that prints as nothing. *)
Definition silent_fault : Env json :=
  world None false
        (fun k => if (k <? 4)%nat then blocked else Raise (OtherException "")).

(** The phrase of the decision table in lower case, on stderr. *)
Definition lower_case_phrase : CompletedProcess :=
  completed 1 "" "ERROR: watch on the latest version of YouTube".

(** The phrase on stdout while stderr carries something else. *)
Definition phrase_on_stdout : CompletedProcess :=
  completed 1 "This content is not available on this app" "WARNING: falling back".

Definition android : Strategy :=
  {| client_type := "android"; skip_type := None; additional_args := [] |}.

Definition mweb : Strategy :=
  {| client_type := "mweb"; skip_type := None; additional_args := [] |}.

Definition web_skip : Strategy :=
  {| client_type := "web"; skip_type := Some "webpage"; additional_args := [] |}.

End Scenario.

(* ================================================================= *)
(** ** The rest of the module: health probe and CORS setting *)

(** [c.isspace()] on the 8-bit range: tab to carriage return, the four
    separators 28..31, space, next line (133) and no-break space (160). *)
Definition isspace (c : ascii) : bool :=
  let n := nat_of_ascii c in
  (((9 <=? n) && (n <=? 13)) || ((28 <=? n) && (n <=? 32))
   || (n =? 133) || (n =? 160))%nat.

(** [s.lstrip()]. *)
Fixpoint lstrip (s : string) : string :=
  match s with
  | EmptyString => EmptyString
  | String c s' => if isspace c then lstrip s' else s
  end.

(** [s.rstrip()]. *)
Fixpoint rstrip (s : string) : string :=
  match s with
  | EmptyString => EmptyString
  | String c s' =>
      match rstrip s' with
      | EmptyString => if isspace c then EmptyString else String c EmptyString
      | String _ _ as r => String c r
      end
  end.

(** [s.strip()]. *)
Definition strip (s : string) : string := lstrip (rstrip s).

(** Line 49: the command line of the version probe. *)
Definition health_args (executable : string) : list string :=
  [ executable; "-m"; "yt_dlp"; "--version" ]%list.

(** Lines 43-66: [health_check].  [sys_version] is [sys.version]; the
    probe is the first call of its request.  [except Exception] takes
    every value of [exn]. *)
Definition health_check {Response : Type} (E : Env Response)
    (sys_version : string) : json :=
  let probe :=
    match subprocess_run E 0 (health_args (sys_executable E)) 5 with
    | Ret r =>
        let ytdlp_available := (returncode r =? 0)%Z in
        (ytdlp_available,
         if ytdlp_available then strip (stdout r) else "Not available")
    | Raise _ => (false, "Not available")
    end in
  JDict [ ("status", JStr "ok");
          ("ytdlp_available", JBool (fst probe));
          ("ytdlp_version", JStr (snd probe));
          ("python_version", JStr sys_version) ]%list.

(** [d[key]] for a dict, [None] when the key or the dict is missing. *)
Definition field (key : string) (d : json) : option json :=
  match d with
  | JDict items => lookup key items
  | _ => None
  end.

(** Line 25: [os.getenv("CORS_ORIGIN", "*")]. *)
Definition cors_origin {Response : Type} (E : Env Response) : string :=
  match os_getenv E "CORS_ORIGIN" with
  | Some v => v
  | None => "*"
  end.

(** Line 28: the [allow_origins] argument of the CORS middleware. *)
Definition allow_origins {Response : Type} (E : Env Response) : list string :=
  if negb (String.eqb (cors_origin E) "*")
  then [ cors_origin E ]%list
  else [ "*" ]%list.

(** Sum of the time bounds of a list of calls, in seconds. *)
Definition time_budget (calls : list Invocation) : Z :=
  fold_right (fun i acc => (timeout i + acc)%Z) 0%Z calls.

(** More concrete worlds. *)
Module Cases.

(** The cookies file is there. *)
Definition cookies_present : Env json :=
  Scenario.world (Some "/data/cookies.txt") true
                 (fun k => if (k <? 2)%nat then Scenario.blocked else Scenario.ok).

(** The version probe answers. *)
Definition probe_ok : Env json :=
  Scenario.world None false
                 (fun _ => Ret (Scenario.completed 0 ("2024.08.06" ++ LF) "")).

(** Several origins in one variable. *)
Definition two_origins : Env json :=
  {| sys_executable := "/usr/local/bin/python3";
     os_getenv := fun name =>
       if String.eqb name "CORS_ORIGIN"
       then Some "https://a.example,https://b.example" else None;
     os_path_exists := fun _ => false;
     subprocess_run := fun _ _ _ => Scenario.ok;
     json_loads := Scenario.loads;
     JSONResponse := fun data => Ret data |}.

End Cases.


(** Worlds whose tool exits with zero and prints JSON that is not the
    expected object. *)
Module Gaps.

(** An object with a float the response cannot carry. *)
Definition nan_text : string :=
  "{" ++ Scenario.DQ ++ "title" ++ Scenario.DQ ++ ": "
      ++ Scenario.DQ ++ "x" ++ Scenario.DQ ++ ", "
      ++ Scenario.DQ ++ "duration" ++ Scenario.DQ ++ ": NaN}".

Definition nan_payload : json :=
  JDict [ ("title", JStr "x"); ("duration", JFloat "NaN") ]%list.

(** [json.loads] on the four documents of these worlds. *)
Definition loads (text : string) : result json :=
  if String.eqb text "[]" then Ret (JList nil)
  else if String.eqb text "7" then Ret (JInt 7)
  else if String.eqb text "null" then Ret JNone
  else if String.eqb text nan_text then Ret nan_payload
  else Scenario.loads text.

(** A dict with a NaN among its values. *)
Definition has_nan (data : json) : bool :=
  match data with
  | JDict items =>
      existsb (fun kv => match snd kv with
                         | JFloat repr => String.eqb repr "NaN"
                         | _ => false
                         end) items
  | _ => false
  end.

(** [JSONResponse(content=data)] renders at once and refuses NaN. *)
Definition respond (data : json) : result json :=
  if has_nan data
  then Raise (OtherException "Out of range float values are not JSON compliant")
  else Ret data.

Definition world (run : nat -> result CompletedProcess) : Env json :=
  {| sys_executable := "/usr/local/bin/python3";
     os_getenv := fun _ => None;
     os_path_exists := fun _ => false;
     subprocess_run := fun call_no _ _ => run call_no;
     json_loads := loads;
     JSONResponse := respond |}.




End Gaps.

(* ================================================================= *)
(** ** Proof automation *)

(** Goes through the positions of a five-entry catalog one by one. *)
Ltac position_by_position :=
  let j := fresh "j" in
  intro j; intros;
  do 5 (destruct j as [|j];
        [ first [ exfalso; lia
                | match goal with
                  | H : nth_error _ _ = Some _ |- _ =>
                      cbn in H; inversion H; subst; vm_compute; reflexivity
                  end ]
        | ]);
  first [ exfalso; lia
        | match goal with
          | H : nth_error _ _ = Some _ |- _ => destruct j; discriminate H
          end ].

(** Picks the disjunct a failed attempt belongs to. *)
Ltac which_failure :=
  first [ right; left; eexists; reflexivity
        | right; right; left; reflexivity
        | right; right; right; eexists; reflexivity ].

(* ================================================================= *)
(** ** Strings: lemmas *)

Module PyStrFacts.

Lemma startswith_app (p s : string) : startswith p (p ++ s) = true.
Proof.
  induction p as [|c p IH]; simpl; [reflexivity|].
  now rewrite Ascii.eqb_refl, IH.
Qed.

Lemma startswith_inv (p s : string) :
  startswith p s = true -> exists rest, s = p ++ rest.
Proof.
  revert s. induction p as [|c p IH]; intros s H.
  - now exists s.
  - destruct s as [|b s]; simpl in H; [discriminate|].
    apply andb_true_iff in H. destruct H as [Hc Hp].
    apply Ascii.eqb_eq in Hc. subst b.
    destruct (IH _ Hp) as [rest ->]. now exists rest.
Qed.

Lemma startswith_contains (p s : string) :
  startswith p s = true -> contains p s = true.
Proof. intro H. destruct s; simpl; now rewrite H. Qed.

Lemma contains_Substring (needle hay : string) :
  contains needle hay = true <-> Substring needle hay.
Proof.
  split.
  - induction hay as [|c hay IH]; simpl; intro H.
    + rewrite orb_false_r in H.
      destruct (startswith_inv _ _ H) as [rest ->]. now exists "", rest.
    + apply orb_true_iff in H. destruct H as [H|H].
      * destruct (startswith_inv _ _ H) as [rest Hr].
        exists "", rest. exact Hr.
      * destruct (IH H) as (a & b & ->). now exists (String c a), b.
  - intros (a & b & ->). induction a as [|c a IH]; simpl.
    + apply startswith_contains, startswith_app.
    + rewrite IH. apply orb_true_r.
Qed.

Lemma truthy_true (s : string) : truthy s = true <-> s <> "".
Proof. destruct s; simpl; split; congruence. Qed.

Lemma or_else_truthy (a b : string) :
  truthy b = true -> truthy (or_else a b) = true.
Proof. unfold or_else. destruct (truthy a) eqn:Ha; congruence. Qed.

Lemma take_truthy (n : nat) (s : string) :
  truthy s = true -> truthy (take (S n) s) = true.
Proof. destruct s; simpl; congruence. Qed.

Lemma app_truthy_l (a b : string) : truthy a = true -> truthy (a ++ b) = true.
Proof. destruct a; simpl; congruence. Qed.

End PyStrFacts.

(* ================================================================= *)
(** ** The loop: lemmas *)

Lemma nth_error_Some_lt {A : Type} (l : list A) (j : nat) (x : A) :
  nth_error l j = Some x -> j < length l.
Proof. intro H. apply nth_error_Some. congruence. Qed.

Section LoopFacts.

Context {Response : Type}.
Variable E : Env Response.
Variable cookies : option string.
Variable video_url : string.

Local Open Scope list_scope.

Local Abbreviation attempt := (attempt E cookies video_url).
Local Abbreviation try_clients := (try_clients E cookies video_url).
Local Abbreviation invocation_of := (invocation_of E cookies video_url).

(** The loop over [a ++ b] is the loop over [a], then over [b] unless
    [a] returned. *)
Lemma try_clients_app (a b : list Strategy) (st : LoopState) :
  try_clients (a ++ b) st =
  match try_clients a st with
  | (Some r, st') => (Some r, st')
  | (None, st') => try_clients b st'
  end.
Proof.
  revert st. induction a as [|s a IH]; intro st; simpl.
  - reflexivity.
  - destruct (attempt (length (invocations st)) s); [reflexivity|apply IH].
Qed.

(** The two records only grow. *)
Lemma try_clients_extends (configs : list Strategy) (st : LoopState) :
  exists calls diags,
    invocations (snd (try_clients configs st)) = invocations st ++ calls /\
    diagnostics (snd (try_clients configs st)) = diagnostics st ++ diags.
Proof.
  revert st. induction configs as [|s rest IH]; intro st; simpl.
  - exists [], []. now rewrite !app_nil_r.
  - destruct (attempt (length (invocations st)) s) as [r|d]; simpl.
    + exists [invocation_of s], []. now rewrite app_nil_r.
    + destruct (IH (retained d (invoked (invocation_of s) st)))
        as (calls & diags & Hc & Hd).
      exists (invocation_of s :: calls), (d :: diags).
      rewrite Hc, Hd. simpl. now rewrite <- !app_assoc.
Qed.

(** A catalog whose attempts all fail is run to its end. *)
Lemma try_clients_all_fail (configs : list Strategy) (st : LoopState) :
  (forall j s, nth_error configs j = Some s ->
               succeeded (attempt (length (invocations st) + j) s) = false) ->
  exists st',
    try_clients configs st = (None, st') /\
    invocations st' = invocations st ++ map invocation_of configs /\
    length (diagnostics st') = length (diagnostics st) + length configs /\
    (configs = [] -> st' = st).
Proof.
  revert st. induction configs as [|s rest IH]; intros st Hfail; simpl.
  - exists st. rewrite app_nil_r. repeat split; lia.
  - pose proof (Hfail 0 s eq_refl) as H0. rewrite Nat.add_0_r in H0.
    destruct (attempt (length (invocations st)) s) as [r|d]; [discriminate|].
    destruct (IH (retained d (invoked (invocation_of s) st))) as (st' & Hrun & Hc & Hd & _).
    + intros j sj Hj. simpl. rewrite length_app. simpl.
      replace (length (invocations st) + 1 + j) with (length (invocations st) + S j) by lia.
      now apply Hfail.
    + exists st'. repeat split.
      * exact Hrun.
      * rewrite Hc. simpl. now rewrite <- app_assoc.
      * rewrite Hd. simpl. rewrite length_app. simpl. lia.
      * discriminate.
Qed.

(** One strategy, tried from a state with [n] calls behind it. *)
Lemma try_clients_step (s : Strategy) (rest : list Strategy) (st : LoopState) :
  try_clients (s :: rest) st =
  match attempt (length (invocations st)) s with
  | SUCCESS r => (Some r, invoked (invocation_of s) st)
  | Continue d => try_clients rest (retained d (invoked (invocation_of s) st))
  end.
Proof. reflexivity. Qed.

(** What happens at position [k] of a catalog when nothing before it
    succeeded: the strategy is invoked as call [k]; a success returns at
    once; a failure is recorded and the next strategy, if any, is
    invoked. *)
Lemma try_clients_at (configs : list Strategy) (k : nat) (s : Strategy) :
  nth_error configs k = Some s ->
  (forall j sj, j < k -> nth_error configs j = Some sj ->
                succeeded (attempt j sj) = false) ->
  let run := try_clients configs initial_state in
  nth_error (invocations (snd run)) k = Some (invocation_of s) /\
  (forall r, attempt k s = SUCCESS r ->
             fst run = Some r /\
             invocations (snd run) = map invocation_of (firstn (S k) configs)) /\
  (forall d, attempt k s = Continue d ->
             nth_error (diagnostics (snd run)) k = Some d /\
             forall next, nth_error configs (S k) = Some next ->
                          nth_error (invocations (snd run)) (S k) = Some (invocation_of next)).
Proof.
  intros Hk Hfail run.
  destruct (nth_error_split _ _ Hk) as (pre & post & Hsplit & Hlen).
  destruct (try_clients_all_fail pre initial_state) as (st & Hpre & Hc & Hd & _).
  { intros j sj Hj. simpl. apply Hfail.
    - apply nth_error_Some_lt in Hj. lia.
    - rewrite Hsplit. rewrite nth_error_app1; [exact Hj|].
      now apply nth_error_Some_lt in Hj. }
  simpl in Hc, Hd.
  assert (Hn : length (invocations st) = k) by (rewrite Hc, length_map; exact Hlen).
  rewrite Hlen in Hd.
  assert (Hrun : run = try_clients (s :: post) st).
  { unfold run. rewrite Hsplit, try_clients_app, Hpre. reflexivity. }
  assert (Hfirst : firstn (S k) configs = pre ++ [s]).
  { rewrite Hsplit, <- Hlen.
    change (s :: post) with ([s] ++ post). rewrite app_assoc.
    replace (S (length pre)) with (length (pre ++ [s]) + 0)
      by (rewrite length_app; simpl; lia).
    rewrite firstn_app_2. simpl. now rewrite app_nil_r. }
  rewrite Hrun, try_clients_step, Hn.
  destruct (attempt k s) as [r|d] eqn:Hatt.
  - cbn [fst snd invoked invocations]. rewrite Hc.
    split; [|split].
    + rewrite nth_error_app2; rewrite length_map, Hlen; [|lia].
      now rewrite Nat.sub_diag.
    + intros r' Hr'. inversion Hr'; subst r'. split; [reflexivity|].
      rewrite Hfirst, map_app. reflexivity.
    + intros d Hd'. discriminate.
  - set (st1 := retained d (invoked (invocation_of s) st)).
    destruct (try_clients_extends post st1) as (calls & diags & Hc1 & Hd1).
    split; [|split].
    + rewrite Hc1. unfold st1. simpl. rewrite Hc.
      rewrite <- app_assoc. rewrite nth_error_app2; rewrite length_map, Hlen; [|lia].
      now rewrite Nat.sub_diag.
    + intros r Hr. discriminate.
    + intros d' Hd'. inversion Hd'; subst d'. split.
      * rewrite Hd1. unfold st1. simpl.
        rewrite <- app_assoc. rewrite nth_error_app2; rewrite Hd; [|lia].
        now rewrite Nat.sub_diag.
      * intros next Hnext.
        rewrite Hsplit in Hnext.
        rewrite nth_error_app2 in Hnext by lia.
        replace (S k - length pre) with 1 in Hnext by lia.
        destruct post as [|next' post']; simpl in Hnext; [discriminate|].
        inversion Hnext; subst next'.
        rewrite try_clients_step.
        assert (Hn1 : invocations (invoked (invocation_of next) st1)
                      = map invocation_of pre ++ [invocation_of s; invocation_of next]).
        { unfold st1. simpl. rewrite Hc. now rewrite <- app_assoc. }
        assert (Hget : forall tail,
                   nth_error ((map invocation_of pre ++ [invocation_of s; invocation_of next]) ++ tail) (S k)
                   = Some (invocation_of next)).
        { intro tail. rewrite <- app_assoc.
          rewrite nth_error_app2; rewrite length_map, Hlen; [|lia].
          replace (S k - k) with 1 by lia. reflexivity. }
        destruct (attempt (length (invocations st1)) next) as [r|d2].
        -- simpl snd. rewrite Hn1. rewrite <- (app_nil_r (_ ++ _)). apply Hget.
        -- destruct (try_clients_extends post'
                       (retained d2 (invoked (invocation_of next) st1)))
             as (calls2 & diags2 & Hc2 & _).
           rewrite Hc2.
           change (invocations (retained d2 (invoked (invocation_of next) st1)))
             with (invocations (invoked (invocation_of next) st1)).
           rewrite Hn1. apply Hget.
Qed.

(** A catalog that fails throughout retains its last attempt's message
    and nothing else. *)
Lemma try_clients_exhausted (init : list Strategy) (s_last : Strategy) :
  (forall j sj, nth_error (init ++ [s_last]) j = Some sj ->
                succeeded (attempt j sj) = false) ->
  let run := try_clients (init ++ [s_last]) initial_state in
  exists d,
    attempt (length init) s_last = Continue d /\
    fst run = None /\
    last_error (snd run) = Some (message d) /\
    invocations (snd run) = map invocation_of (init ++ [s_last]) /\
    length (diagnostics (snd run)) = length (init ++ [s_last]) /\
    nth_error (diagnostics (snd run)) (length init) = Some d.
Proof.
  intros Hfail run.
  destruct (try_clients_all_fail init initial_state) as (st & Hpre & Hc & Hd & _).
  { intros j sj Hj. simpl. apply Hfail.
    rewrite nth_error_app1; [exact Hj|]. now apply nth_error_Some_lt in Hj. }
  simpl in Hc, Hd.
  assert (Hn : length (invocations st) = length init) by (now rewrite Hc, length_map).
  assert (Hlast : succeeded (attempt (length init) s_last) = false).
  { apply Hfail. rewrite nth_error_app2 by lia. now rewrite Nat.sub_diag. }
  destruct (attempt (length init) s_last) as [r|d] eqn:Hatt; [discriminate|].
  exists d. split; [reflexivity|].
  unfold run. rewrite try_clients_app, Hpre, try_clients_step, Hn, Hatt. simpl.
  repeat split.
  - rewrite Hc, map_app. reflexivity.
  - rewrite !length_app, Hd. simpl. lia.
  - rewrite nth_error_app2; rewrite Hd; [|lia]. now rewrite Nat.sub_diag.
Qed.

(** A loop that did not return saw every attempt fail. *)
Lemma try_clients_None_inv (configs : list Strategy) (st : LoopState) :
  fst (try_clients configs st) = None ->
  forall j s, nth_error configs j = Some s ->
              succeeded (attempt (length (invocations st) + j) s) = false.
Proof.
  revert st. induction configs as [|s0 rest IH]; intros st Hnone j s Hj.
  - destruct j; discriminate.
  - rewrite try_clients_step in Hnone.
    destruct (attempt (length (invocations st)) s0) as [r|d] eqn:Hatt;
      [discriminate|].
    destruct j as [|j]; cbn [nth_error] in Hj.
    + inversion Hj; subst s0. now rewrite Nat.add_0_r, Hatt.
    + specialize (IH _ Hnone j s Hj).
      cbn [retained invoked invocations] in IH. rewrite length_app in IH.
      cbn [length] in IH.
      replace (length (invocations st) + S j)
        with (length (invocations st) + 1 + j) by lia.
      exact IH.
Qed.

End LoopFacts.

(* ================================================================= *)
(** ** One attempt: lemmas *)

Section AttemptFacts.

Context {Response : Type}.
Variable E : Env Response.
Variable cookies : option string.
Variable video_url : string.
Variable call_no : nat.
Variable s : Strategy.

Local Abbreviation the_call :=
  (subprocess_run E call_no (args (invocation_of E cookies video_url s)) 60).


Lemma attempt_nonzero (cp : CompletedProcess) :
  the_call = Ret cp -> returncode cp <> 0%Z ->
  attempt E cookies video_url call_no s =
  Continue (classify_failure (config_name s) cp).
Proof.
  intros H Hrc. unfold attempt, try_body. cbn [timeout invocation_of].
  rewrite H. cbn [bind].
  destruct (Z.eqb_spec (returncode cp) 0); [contradiction|reflexivity].
Qed.




(** A success is a zero exit whose output decodes to a dict that the
    response accepts. *)
Lemma attempt_SUCCESS_inv (r : Response) :
  attempt E cookies video_url call_no s = SUCCESS r ->
  exists cp items,
    the_call = Ret cp /\ returncode cp = 0%Z /\
    json_loads E (stdout cp) = Ret (JDict items) /\
    JSONResponse E (JDict items) = Ret r.
Proof.
  unfold attempt, try_body. cbn [timeout invocation_of].
  destruct the_call as [cp|e]; cbn [bind].
  - destruct (Z.eqb_spec (returncode cp) 0) as [Hrc|Hrc]; [|discriminate].
    destruct (json_loads E (stdout cp)) as [data|e] eqn:Hloads; cbn [bind catch].
    + destruct data; cbn [py_get bind catch]; try discriminate.
      destruct (JSONResponse E (JDict items)) as [resp|e] eqn:Hresp; cbn [bind catch].
      * intro H. inversion H; subst resp. now exists cp, items.
      * destruct e; discriminate.
    + destruct e; discriminate.
  - destruct e; discriminate.
Qed.

Lemma classify_failure_message (name : string) (cp : CompletedProcess) :
  truthy (message (classify_failure name cp)) = true.
Proof.
  unfold classify_failure.
  set (error_msg := or_else (stderr cp) (or_else (stdout cp) "Unknown error")).
  assert (Hmsg : truthy error_msg = true)
    by (unfold error_msg; now do 2 apply PyStrFacts.or_else_truthy).
  destruct (_ || _); [reflexivity|].
  destruct (_ || _); [reflexivity|].
  cbn [message]. now apply PyStrFacts.take_truthy.
Qed.

(** Only the generic handler can retain an empty message. *)
Lemma attempt_message_empty (d : Diagnostic) :
  attempt E cookies video_url call_no s = Continue d ->
  message d = "" ->
  try_body E cookies video_url call_no s = Raise (OtherException "") \/
  try_body E cookies video_url call_no s = Raise (JSONDecodeError "").
Proof.
  unfold attempt.
  destruct (try_body E cookies video_url call_no s) as [o|e] eqn:Hbody.
  - intros -> Hempty. exfalso.
    revert Hbody. unfold try_body. cbn [timeout invocation_of].
    destruct the_call as [cp|e]; cbn [bind]; [|discriminate].
    destruct (returncode cp =? 0)%Z.
    + destruct (json_loads E (stdout cp)) as [data|e]; cbn [bind catch].
      * destruct (py_get data "title" (JStr "Unknown")) as [t|e]; cbn [bind catch].
        -- destruct (JSONResponse E data) as [resp|e]; cbn [bind catch];
             [discriminate|].
           destruct e; try discriminate.
           intro H. inversion H; subst d. discriminate.
        -- destruct e; try discriminate.
           intro H. inversion H; subst d. discriminate.
      * destruct e; try discriminate.
        intro H. inversion H; subst d. discriminate.
    + intro H. inversion H; subst d.
      pose proof (classify_failure_message (config_name s) cp) as Ht.
      rewrite Hempty in Ht. discriminate.
  - destruct e as [|msg|msg]; intros H Hempty;
      inversion H; subst d; cbn [message] in Hempty; try discriminate;
      subst msg; auto.
Qed.

End AttemptFacts.

Lemma matches_bot_pattern_truthy (m : string) :
  matches_bot_pattern m = true -> truthy m = true.
Proof. destruct m; [discriminate|reflexivity]. Qed.

(** The detail when the retained message is not empty. *)
Lemma final_detail_truthy (m : string) :
  truthy m = true ->
  final_detail (Some m)
  = ("yt-dlp extraction failed: "
       ++ (if matches_bot_pattern m then REMEDIATION else m))%string.
Proof. intro H. unfold final_detail, or_else. now rewrite H. Qed.

(** The decision table of lines 169-179, read off the error text. *)
Lemma classify_failure_category (name : string) (cp : CompletedProcess) :
  let error_msg := or_else (stderr cp) (or_else (stdout cp) "Unknown error") in
  let bot :=
    Substring "Sign in to confirm" error_msg \/ Substring "not a bot" error_msg in
  let unsupported :=
    Substring "not available on this app" error_msg \/
    Substring "Watch on the latest version" error_msg in
  (bot -> category (classify_failure name cp) = bot_detection) /\
  (~ bot -> unsupported -> category (classify_failure name cp) = unsupported_content) /\
  (~ bot -> ~ unsupported -> category (classify_failure name cp) = other).
Proof.
  intros error_msg bot unsupported.
  assert (Hbot : contains "Sign in to confirm" error_msg
                 || contains "not a bot" error_msg = true <-> bot).
  { unfold bot. rewrite orb_true_iff, !PyStrFacts.contains_Substring. reflexivity. }
  assert (Huns : contains "not available on this app" error_msg
                 || contains "Watch on the latest version" error_msg = true
                 <-> unsupported).
  { unfold unsupported. rewrite orb_true_iff, !PyStrFacts.contains_Substring. reflexivity. }
  unfold classify_failure. fold error_msg.
  destruct (contains "Sign in to confirm" error_msg || contains "not a bot" error_msg)
    eqn:Hb.
  - split; [reflexivity|].
    split; intros Hn; exfalso; apply Hn; now apply Hbot.
  - assert (Hnb : ~ bot) by (intro Hc; apply Hbot in Hc; discriminate).
    destruct (contains "not available on this app" error_msg
              || contains "Watch on the latest version" error_msg) eqn:Hu.
    + split; [intro; contradiction|]. split; [reflexivity|].
      intros _ Hn. exfalso. apply Hn. now apply Huns.
    + split; [intro; contradiction|]. split; [|reflexivity].
      intros _ Hc. apply Huns in Hc. discriminate.
Qed.

(* ================================================================= *)
(** ** Two worlds: lemmas *)

Section WorldFacts.

Context {Response : Type}.
Variables E1 E2 : Env Response.
Hypothesis Hexe : sys_executable E1 = sys_executable E2.
Hypothesis Hrun : forall n a t, subprocess_run E1 n a t = subprocess_run E2 n a t.
Hypothesis Hloads : forall text, json_loads E1 text = json_loads E2 text.
Hypothesis Hresp : forall data, JSONResponse E1 data = JSONResponse E2 data.

Lemma attempt_ext (cookies : option string) (video_url : string)
    (call_no : nat) (s : Strategy) :
  attempt E1 cookies video_url call_no s = attempt E2 cookies video_url call_no s.
Proof.
  unfold attempt, try_body, invocation_of. cbn [args timeout].
  rewrite Hexe, Hrun.
  destruct (subprocess_run E2 _ _ _) as [cp|e]; cbn [bind]; [|reflexivity].
  destruct (returncode cp =? 0)%Z; [|reflexivity].
  rewrite Hloads.
  destruct (json_loads E2 (stdout cp)) as [data|e]; cbn [bind catch]; [|reflexivity].
  destruct (py_get data "title" (JStr "Unknown")); cbn [bind catch]; [|reflexivity].
  now rewrite Hresp.
Qed.

Lemma try_clients_ext (cookies : option string) (video_url : string)
    (configs : list Strategy) (st : LoopState) :
  try_clients E1 cookies video_url configs st =
  try_clients E2 cookies video_url configs st.
Proof.
  revert st. induction configs as [|s rest IH]; intro st; [reflexivity|].
  cbn [try_clients]. rewrite attempt_ext.
  unfold invocation_of. rewrite Hexe.
  destruct (attempt E2 cookies video_url (length (invocations st)) s); [reflexivity|].
  apply IH.
Qed.

End WorldFacts.

(* ================================================================= *)
(** ** Command lines: lemmas *)

Local Open Scope list_scope.

Lemma has_option_cons (flag value a b : string) (rest : list string) :
  has_option flag value (a :: b :: rest)
  = (String.eqb a flag && String.eqb b value) || has_option flag value (b :: rest).
Proof. reflexivity. Qed.

Lemma has_option_app_r (flag value : string) (l1 l2 : list string) :
  has_option flag value l2 = true -> has_option flag value (l1 ++ l2) = true.
Proof.
  intro H. induction l1 as [|a l1 IH]; [exact H|].
  cbn [app]. destruct (l1 ++ l2) as [|b rest] eqn:Heq.
  - destruct l1; [|discriminate]. cbn [app] in Heq. rewrite Heq in H. discriminate.
  - rewrite has_option_cons, IH. apply orb_true_r.
Qed.

Lemma has_option_here (flag value : string) (rest : list string) :
  has_option flag value (flag :: value :: rest) = true.
Proof. rewrite has_option_cons. now rewrite !String.eqb_refl. Qed.

(* ================================================================= *)
(** ** Properties of [extract_video] *)

Section Properties.

Context {Response : Type}.
Variable E : Env Response.
Variable video_url : string.

Local Open Scope list_scope.



(** C3 (as amended). A completed attempt with a non-zero exit status is
    classified by a first-match-wins, case-sensitive substring test on
    its error text, which is stderr when stderr is not empty, else
    stdout, else "Unknown error": the sign-in phrases give
    bot-detection; failing those, "not available on this app" or
    "Watch on the latest version" give unsupported-content; failing
    those too, other.  In every case the diagnostic is recorded and the
    next strategy, if there is one, is invoked. *)
Theorem nonzero_exit_decision_table
    (configs : list Strategy) (k : nat) (s : Strategy) (cp : CompletedProcess) :
  nth_error configs k = Some s ->
  (forall j sj, j < k -> nth_error configs j = Some sj ->
                succeeded (attempt_of E video_url j sj) = false) ->
  subprocess_run E k (args (invocation_for E video_url s)) 60 = Ret cp ->
  returncode cp <> 0%Z ->
  let error_msg := or_else (stderr cp) (or_else (stdout cp) "Unknown error") in
  let bot :=
    Substring "Sign in to confirm" error_msg \/ Substring "not a bot" error_msg in
  let unsupported :=
    Substring "not available on this app" error_msg \/
    Substring "Watch on the latest version" error_msg in
  let run := extract_with E configs video_url in
  exists d,
    attempt_of E video_url k s = Continue d /\
    (bot -> category d = bot_detection) /\
    (~ bot -> unsupported -> category d = unsupported_content) /\
    (~ bot -> ~ unsupported -> category d = other) /\
    nth_error (diagnostics (final_state run)) k = Some d /\
    (forall next, nth_error configs (S k) = Some next ->
                  nth_error (invocations (final_state run)) (S k)
                  = Some (invocation_for E video_url next)).
Proof.
  intros Hk Hfail Hcall Hrc error_msg bot unsupported run.
  pose proof (attempt_nonzero E (fst (use_cookies E)) video_url k s Hcall Hrc) as Hatt.
  destruct (try_clients_at E (fst (use_cookies E)) video_url configs Hk Hfail)
    as (_ & _ & Hcont).
  destruct (Hcont _ Hatt) as [Hdiag Hnext].
  exists (classify_failure (config_name s) cp).
  destruct (classify_failure_category (config_name s) cp) as (Hb & Hu & Ho).
  refine (conj Hatt (conj Hb (conj Hu (conj Ho (conj Hdiag Hnext))))).
Qed.




(** C7. When [YTDLP_COOKIES_FILE] names a file that does not exist, every
    command line is the one built without cookies, and the whole request
    runs as in the world where the variable is not set; building cannot
    fail, being a total function.  [os.path.exists] is asked at most
    once per request, and exactly once for a non-empty path. *)
Theorem missing_cookie_file_is_ignored (configs : list Strategy) (path : string) :
  os_getenv E COOKIES_ENV = Some path ->
  os_path_exists E path = false ->
  let run := extract_with E configs video_url in
  let bare := extract_with (unset_cookies E) configs video_url in
  (forall s, invocation_for E video_url s
             = {| args := build_args (sys_executable E) None video_url s;
                  timeout := 60 |}) /\
  (forall s, invocation_for E video_url s
             = invocation_for (unset_cookies E) video_url s) /\
  final_state run = final_state bare /\
  outcome run = outcome bare /\
  path_checks run = (if truthy path then [path] else []) /\
  length (path_checks run) <= 1.
Proof.
  intros Henv Hmissing run bare.
  assert (Huse : use_cookies E = (None, if truthy path then [path] else [])).
  { unfold use_cookies. rewrite Henv. destruct (truthy path); [|reflexivity].
    now rewrite Hmissing. }
  assert (Hbare : use_cookies (unset_cookies E) = (None, [])) by reflexivity.
  assert (Hloop : try_clients E None video_url configs initial_state
                  = try_clients (unset_cookies E) None video_url configs initial_state)
    by (apply try_clients_ext; reflexivity).
  unfold run, bare, extract_with, invocation_for.
  rewrite Huse, Hbare. cbn [fst snd outcome final_state path_checks].
  rewrite Hloop. repeat split.
  destruct (truthy path); cbn [length]; lia.
Qed.

(** C10 (as amended). On exhaustion of a non-empty catalog [last_error]
    is never [None]: it holds the message of the last attempt.  That
    message is empty only when the last attempt left through the generic
    exception handler with an exception whose text is empty; whenever it
    is not empty the final detail is built from it (or from the
    remediation text) and the fallback text is not used. *)
Theorem last_error_set_on_exhaustion (init : list Strategy) (s_last : Strategy) :
  let run := extract_with E (init ++ [s_last]) video_url in
  exhausted (outcome run) = true ->
  exists d,
    attempt_of E video_url (length init) s_last = Continue d /\
    last_error (final_state run) = Some (message d) /\
    (message d = ""%string ->
     let body := try_body E (fst (use_cookies E)) video_url (length init) s_last in
     body = Raise (OtherException "") \/ body = Raise (JSONDecodeError "")) /\
    (message d <> ""%string ->
     outcome run
     = HTTPException 500
         ("yt-dlp extraction failed: "
            ++ (if matches_bot_pattern (message d) then REMEDIATION else message d))%string).
Proof.
  intros run Hex.
  assert (Hnone : fst (try_clients E (fst (use_cookies E)) video_url
                         (init ++ [s_last]) initial_state) = None).
  { unfold run, extract_with in Hex. cbn [outcome] in Hex.
    destruct (fst (try_clients _ _ _ _ _)); [discriminate|reflexivity]. }
  pose proof (try_clients_None_inv E (fst (use_cookies E)) video_url
                (init ++ [s_last]) initial_state Hnone) as Hfail.
  destruct (try_clients_exhausted E (fst (use_cookies E)) video_url init s_last Hfail)
    as (d & Hd & _ & Hlast & _ & _ & _).
  exists d. split; [exact Hd|]. split.
  - unfold run, extract_with. cbn [final_state]. exact Hlast.
  - split.
    + intro Hempty. now apply (attempt_message_empty E _ _ _ _ Hd).
    + intro Hne. unfold run, extract_with. cbn [outcome].
      rewrite Hnone, Hlast. f_equal.
      apply final_detail_truthy. now apply PyStrFacts.truthy_true.
Qed.

End Properties.

(** C8. Whatever the strategy, the URL and the cookies, the command line
    asks for one JSON document ([--dump-json]) without playlist expansion
    ([--no-playlist]), sets the fixed browser user agent and the YouTube
    referer header, and carries the two engine-wide extractor hints (no
    live chat; skip dash and translated subtitles); the URL comes last. *)
Theorem build_args_fixed_flags
    (executable : string) (cookies : option string) (video_url : string)
    (s : Strategy) :
  let a := build_args executable cookies video_url s in
  nth_error a 3 = Some "--dump-json"%string /\
  nth_error a 5 = Some "--no-playlist"%string /\
  nth_error a 6 = Some "--user-agent"%string /\
  nth_error a 7 = Some USER_AGENT /\
  has_option "--add-header" "Referer:https://www.youtube.com/" a = true /\
  has_option "--extractor-args" "youtube:include_live_chat=false" a = true /\
  has_option "--extractor-args" "youtube:skip=dash,translated_subs" a = true /\
  last a ""%string = video_url.
Proof.
  intro a. unfold a, build_args.
  repeat (split; [reflexivity|]).
  split; [|split; [|split]].
  - do 2 apply has_option_app_r. cbn [app].
    do 3 apply (has_option_app_r _ _ [_; _]). apply has_option_here.
  - do 2 apply has_option_app_r. cbn [app].
    apply (has_option_app_r _ _ [_; _]). apply has_option_here.
  - do 2 apply has_option_app_r. cbn [app].
    do 2 apply (has_option_app_r _ _ [_; _]). apply has_option_here.
  - rewrite !app_assoc. apply last_last.
Qed.

(* ================================================================= *)
(** ** The properties at work *)

(** A normal video: the first strategy answers, one call is made. *)
Example first_strategy_answers :
  let run := extract_video Scenario.first_ok Scenario.url in
  outcome run = Returned Scenario.payload /\
  length (invocations (final_state run)) = 1 /\
  diagnostics (final_state run) = [].
Proof. vm_compute. repeat split. Qed.

(** A Shorts-style URL: [android] is refused, [mweb] answers, and the
    diagnostic retained just before the success is unsupported-content. *)
Example mweb_answers_after_android_refusal :
  let run := extract_video Scenario.mweb_ok Scenario.url in
  outcome run = Returned Scenario.payload /\
  length (invocations (final_state run)) = 5 /\
  map category (diagnostics (final_state run))
  = [unsupported_content; unsupported_content; unsupported_content; unsupported_content] /\
  last_error (final_state run)
  = Some ("Content not available for android: "
            ++ "ERROR: [youtube] dQw4w9WgXcQ: The following content is not available on this app")%string.
Proof. vm_compute. repeat split. Qed.

(** Valid JSON that is not an object is no success: [data.get] raises and
    the generic handler keeps the text of the exception. *)
Example json_list_is_not_a_payload :
  let E := Scenario.world None false (fun _ => Scenario.ok) in
  let E' := {| sys_executable := sys_executable E;
               os_getenv := os_getenv E;
               os_path_exists := os_path_exists E;
               subprocess_run := subprocess_run E;
               json_loads := fun _ => Ret (JList []);
               JSONResponse := JSONResponse E |} in
  attempt_of E' Scenario.url 0 Scenario.web_skip
  = Continue {| strategy_label := "web (skip: webpage)";
                category := other;
                message := "'list' object has no attribute 'get'" |}.
Proof. reflexivity. Qed.



(** C3, as first stated, fails: the lower-case phrase on stderr, and the
    exact phrase on stdout beside a non-empty stderr, both occur in the
    combined output when letter case is ignored, no sign-in phrase does,
    and yet neither attempt is classified unsupported-content. *)
Lemma unsupported_phrase_missed :
  let mentions phrase cp :=
    contains phrase (lower (stderr cp ++ stdout cp)%string) in
  (returncode Scenario.lower_case_phrase <> 0%Z /\
   mentions "watch on the latest version"%string Scenario.lower_case_phrase = true /\
   mentions "sign in to confirm"%string Scenario.lower_case_phrase = false /\
   mentions "not a bot"%string Scenario.lower_case_phrase = false /\
   category (classify_failure "android" Scenario.lower_case_phrase) = other) /\
  (returncode Scenario.phrase_on_stdout <> 0%Z /\
   mentions "not available on this app"%string Scenario.phrase_on_stdout = true /\
   mentions "sign in to confirm"%string Scenario.phrase_on_stdout = false /\
   mentions "not a bot"%string Scenario.phrase_on_stdout = false /\
   category (classify_failure "android" Scenario.phrase_on_stdout) = other).
Proof. vm_compute. repeat split; discriminate. Qed.

(** C10, as first stated, fails: when the last call raises an exception
    whose text is empty, the request ends with the fallback text. *)
Lemma fallback_text_reached :
  let run := extract_video Scenario.silent_fault Scenario.url in
  exhausted (outcome run) = true /\
  last_error (final_state run) = Some ""%string /\
  outcome run
  = HTTPException 500 "yt-dlp extraction failed: All YouTube client types failed".
Proof. vm_compute. repeat split. Qed.



(** [android] is told the content is not available on this app; the
    attempt is recorded as unsupported-content and [mweb] is invoked. *)
Lemma nonzero_exit_decision_table_witness :
  let run := extract_with Scenario.mweb_ok player_configs Scenario.url in
  exists d,
    attempt_of Scenario.mweb_ok Scenario.url 3 Scenario.android = Continue d /\
    category d = unsupported_content /\
    nth_error (diagnostics (final_state run)) 3 = Some d /\
    nth_error (invocations (final_state run)) 4
    = Some (invocation_for Scenario.mweb_ok Scenario.url Scenario.mweb).
Proof.
  destruct (@nonzero_exit_decision_table json Scenario.mweb_ok Scenario.url
              player_configs 3 Scenario.android
              (Scenario.completed 1 ""
                 "ERROR: [youtube] dQw4w9WgXcQ: The following content is not available on this app"))
    as (d & Hd & _ & Huns & _ & Hdiag & Hnext).
  - reflexivity.
  - position_by_position.
  - reflexivity.
  - discriminate.
  - exists d. split; [exact Hd|]. split; [|split].
    + apply Huns.
      * intros [H|H]; apply PyStrFacts.contains_Substring in H; discriminate H.
      * left. apply PyStrFacts.contains_Substring. reflexivity.
    + exact Hdiag.
    + apply Hnext. reflexivity.
Defined.




(** The variable names /data/cookies.txt, which is not there: one check,
    and the request runs as without the variable. *)
Lemma missing_cookie_file_is_ignored_witness :
  let run := extract_with Scenario.cookies_missing player_configs Scenario.url in
  let bare := extract_with (unset_cookies Scenario.cookies_missing)
                player_configs Scenario.url in
  (forall s, invocation_for Scenario.cookies_missing Scenario.url s
             = {| args := build_args (sys_executable Scenario.cookies_missing)
                            None Scenario.url s;
                  timeout := 60 |}) /\
  (forall s, invocation_for Scenario.cookies_missing Scenario.url s
             = invocation_for (unset_cookies Scenario.cookies_missing) Scenario.url s) /\
  final_state run = final_state bare /\
  outcome run = outcome bare /\
  path_checks run = ["/data/cookies.txt"%string] /\
  length (path_checks run) <= 1.
Proof.
  apply (@missing_cookie_file_is_ignored json Scenario.cookies_missing Scenario.url
           player_configs "/data/cookies.txt").
  - reflexivity.
  - reflexivity.
Defined.

(** The silent fault of the last call is the case the amended statement
    singles out: the retained message is empty and comes from the generic
    handler. *)
Lemma last_error_set_on_exhaustion_witness :
  let E := Scenario.silent_fault in
  let run := extract_with E (firstn 4 player_configs ++ [Scenario.mweb]) Scenario.url in
  exists d,
    attempt_of E Scenario.url (length (firstn 4 player_configs)) Scenario.mweb
    = Continue d /\
    last_error (final_state run) = Some (message d) /\
    (message d = ""%string ->
     let body := try_body E (fst (use_cookies E)) Scenario.url
                   (length (firstn 4 player_configs)) Scenario.mweb in
     body = Raise (OtherException "") \/ body = Raise (JSONDecodeError "")) /\
    (message d <> ""%string ->
     outcome run
     = HTTPException 500
         ("yt-dlp extraction failed: "
            ++ (if matches_bot_pattern (message d) then REMEDIATION else message d))%string).
Proof.
  apply (@last_error_set_on_exhaustion json Scenario.silent_fault Scenario.url
           (firstn 4 player_configs) Scenario.mweb).
  vm_compute. reflexivity.
Defined.

(* ================================================================= *)
(** ** More on strings *)

Lemma string_app_assoc (a b c : string) :
  ((a ++ b) ++ c = a ++ (b ++ c))%string.
Proof. induction a as [|x a IH]; simpl; [reflexivity|now rewrite IH]. Qed.

Lemma lower_app (a b : string) :
  lower (a ++ b)%string = (lower a ++ lower b)%string.
Proof. induction a as [|x a IH]; simpl; [reflexivity|now rewrite IH]. Qed.

Lemma contains_app_l (needle a b : string) :
  contains needle a = true -> contains needle (a ++ b)%string = true.
Proof.
  intro H. apply PyStrFacts.contains_Substring in H.
  destruct H as (x & y & ->).
  apply PyStrFacts.contains_Substring. exists x, (y ++ b)%string.
  now rewrite !string_app_assoc.
Qed.

Lemma take_length (n : nat) (s : string) : String.length (take n s) <= n.
Proof.
  revert s. induction n as [|n IH]; intros [|c s]; simpl; try lia.
  specialize (IH s). lia.
Qed.

Lemma take_startswith (n : nat) (s : string) : startswith (take n s) s = true.
Proof.
  revert s. induction n as [|n IH]; intros [|c s]; simpl; try reflexivity.
  now rewrite Ascii.eqb_refl, IH.
Qed.

Lemma take_all (n : nat) (s : string) : String.length s <= n -> take n s = s.
Proof.
  revert s. induction n as [|n IH]; intros [|c s]; simpl; intro H;
    try reflexivity; try lia.
  rewrite IH; [reflexivity|lia].
Qed.





(* ================================================================= *)
(** ** More on one attempt and on the loop *)

Lemma last_default_irrelevant {A : Type} (a : A) (l : list A) (d d' : A) :
  last (a :: l) d = last (a :: l) d'.
Proof.
  revert a. induction l as [|b l IH]; intro a; [reflexivity|].
  change (last (b :: l) d = last (b :: l) d'). apply IH.
Qed.

Lemma last_cons_default {A : Type} (x : A) (l : list A) (d : A) :
  last (x :: l) d = last l x.
Proof.
  destruct l as [|b l]; [reflexivity|].
  change (last (b :: l) d = last (b :: l) x). apply last_default_irrelevant.
Qed.

Section FailureFacts.

Context {Response : Type}.
Variable E : Env Response.
Variable cookies : option string.
Variable video_url : string.

(** The four ways an attempt can fail. *)
Lemma attempt_Continue_inv (call_no : nat) (s : Strategy) (d : Diagnostic) :
  attempt E cookies video_url call_no s = Continue d ->
  (exists cp,
      subprocess_run E call_no (args (invocation_of E cookies video_url s)) 60 = Ret cp /\
      returncode cp <> 0%Z /\
      d = classify_failure (config_name s) cp) \/
  (exists msg,
      d = {| strategy_label := config_name s; category := parse_error;
             message := ("Failed to parse yt-dlp output: " ++ msg)%string |}) \/
  d = {| strategy_label := config_name s; category := timed_out;
         message := "Video extraction timed out" |} \/
  (exists msg,
      d = {| strategy_label := config_name s; category := other;
             message := msg |}).
Proof.
  unfold attempt, try_body. cbn [timeout invocation_of].
  destruct (subprocess_run E call_no _ 60) as [cp|e] eqn:Hcall; cbn [bind].
  - destruct (Z.eqb_spec (returncode cp) 0) as [Hrc|Hrc].
    + destruct (json_loads E (stdout cp)) as [data|e]; cbn [bind catch].
      * destruct (py_get data "title" (JStr "Unknown")) as [t|e]; cbn [bind catch].
        -- destruct (JSONResponse E data) as [resp|e]; cbn [bind catch];
             [discriminate|].
           destruct e; intro H; inversion H; subst d; which_failure.
        -- destruct e; intro H; inversion H; subst d; which_failure.
      * destruct e; intro H; inversion H; subst d; which_failure.
    + intro H. inversion H; subst d. left. now exists cp.
  - destruct e; intro H; inversion H; subst d; which_failure.
Qed.

Lemma attempt_label (call_no : nat) (s : Strategy) (d : Diagnostic) :
  attempt E cookies video_url call_no s = Continue d -> strategy_label d = config_name s.
Proof.
  intro H. apply attempt_Continue_inv in H.
  destruct H as [(cp & _ & _ & ->)|[(msg & ->)|[->|(msg & ->)]]];
    try reflexivity.
  unfold classify_failure.
  destruct (_ || _); [reflexivity|]. destruct (_ || _); reflexivity.
Qed.

End FailureFacts.

Section MoreLoopFacts.

Context {Response : Type}.
Variable E : Env Response.
Variable cookies : option string.
Variable video_url : string.

Local Abbreviation attempt := (attempt E cookies video_url).
Local Abbreviation try_clients := (try_clients E cookies video_url).
Local Abbreviation invocation_of := (invocation_of E cookies video_url).

(** The shape of every run of the loop: the calls are those of a prefix
    of the catalog, every diagnostic belongs to a call, and [last_error]
    is the message of the newest diagnostic. *)
Lemma try_clients_shape (configs : list Strategy) (st : LoopState) :
  let run := try_clients configs st in
  exists n ds,
    n <= length configs /\
    invocations (snd run) = invocations st ++ map invocation_of (firstn n configs) /\
    diagnostics (snd run) = diagnostics st ++ ds /\
    match fst run with
    | Some _ => n = S (length ds)
    | None => n = length ds /\ n = length configs
    end /\
    last_error (snd run)
    = last (map (fun d => Some (message d)) ds) (last_error st) /\
    map strategy_label ds = map config_name (firstn (length ds) configs).
Proof.
  revert st. induction configs as [|s rest IH]; intro st.
  - exists 0, []. cbn. rewrite !app_nil_r. repeat split; lia.
  - cbn zeta. rewrite try_clients_step.
    destruct (attempt (length (invocations st)) s) as [r|d] eqn:Hatt.
    + exists 1, []. cbn. rewrite app_nil_r. repeat split; lia.
    + destruct (IH (retained d (invoked (invocation_of s) st)))
        as (n & ds & Hn & Hc & Hd & Hm & Hl & Hlab).
      exists (S n), (d :: ds).
      split; [cbn; lia|].
      split; [rewrite Hc; cbn; now rewrite <- app_assoc|].
      split; [rewrite Hd; cbn; now rewrite <- app_assoc|].
      split.
      * destruct (fst (try_clients rest _)); cbn [length]; lia.
      * split.
        -- rewrite Hl. cbn [retained last_error map].
           symmetry. apply last_cons_default.
        -- cbn [length firstn map]. rewrite Hlab.
           now rewrite (@attempt_label _ E cookies video_url _ _ _ Hatt).
Qed.

(** A loop that returned did so at the first success. *)
Lemma try_clients_Some_inv (configs : list Strategy) (st : LoopState) (r : Response) :
  fst (try_clients configs st) = Some r ->
  exists k s,
    nth_error configs k = Some s /\
    attempt (length (invocations st) + k) s = SUCCESS r /\
    (forall j sj, j < k -> nth_error configs j = Some sj ->
                  succeeded (attempt (length (invocations st) + j) sj) = false) /\
    length (invocations (snd (try_clients configs st)))
    = length (invocations st) + k + 1.
Proof.
  revert st. induction configs as [|s rest IH]; intros st Hsome; [discriminate|].
  rewrite try_clients_step in *.
  destruct (attempt (length (invocations st)) s) as [r'|d] eqn:Hatt.
  - cbn in Hsome. inversion Hsome; subst r'.
    exists 0, s. rewrite Nat.add_0_r. repeat split; auto.
    + intros j sj Hj. lia.
    + cbn. rewrite length_app. cbn. lia.
  - destruct (IH _ Hsome) as (k & sk & Hk & Hok & Hfail & Hlen).
    cbn [retained invoked invocations] in Hok, Hfail, Hlen.
    rewrite length_app in Hok, Hfail, Hlen. cbn [length] in Hok, Hfail, Hlen.
    exists (S k), sk. split; [exact Hk|]. split.
    + replace (length (invocations st) + S k)
        with (length (invocations st) + 1 + k) by lia. exact Hok.
    + split.
      * intros [|j] sj Hj Hnth.
        -- cbn in Hnth. inversion Hnth; subst sj.
           now rewrite Nat.add_0_r, Hatt.
        -- replace (length (invocations st) + S j)
             with (length (invocations st) + 1 + j) by lia.
           apply Hfail; [lia|exact Hnth].
      * rewrite Hlen. lia.
Qed.

End MoreLoopFacts.

Lemma bot_message_matches (name : string) :
  matches_bot_pattern ("YouTube bot detection (tried " ++ name ++ ")")%string = true.
Proof.
  unfold matches_bot_pattern. rewrite lower_app.
  rewrite contains_app_l; reflexivity.
Qed.

Lemma classify_failure_bot_message (name : string) (cp : CompletedProcess) :
  category (classify_failure name cp) = bot_detection ->
  message (classify_failure name cp)
  = ("YouTube bot detection (tried " ++ name ++ ")")%string.
Proof.
  unfold classify_failure.
  destruct (_ || _); [reflexivity|]. destruct (_ || _); discriminate.
Qed.

Lemma time_budget_prefix {Response : Type} (E : Env Response)
    (cookies : option string) (video_url : string) (l : list Strategy) :
  time_budget (map (invocation_of E cookies video_url) l)
  = (60 * Z.of_nat (length l))%Z.
Proof.
  induction l as [|s l IH]; [reflexivity|].
  cbn [map time_budget fold_right length]. fold (time_budget (map (invocation_of E cookies video_url) l)).
  rewrite IH. cbn [timeout invocation_of]. lia.
Qed.

(* ================================================================= *)
(** ** Further properties of the loop *)

Section MoreProperties.

Context {Response : Type}.
Variable E : Env Response.
Variable video_url : string.



(** X3. No partial success: a request ends in the final error exactly
    when every strategy of the catalog fails at its position. *)
Theorem exhausted_iff_all_fail (configs : list Strategy) :
  exhausted (outcome (extract_with E configs video_url)) = true <->
  (forall j s, nth_error configs j = Some s ->
               succeeded (attempt_of E video_url j s) = false).
Proof.
  unfold extract_with. cbn [outcome]. split.
  - intros Hex.
    apply (try_clients_None_inv E (fst (use_cookies E)) video_url configs initial_state).
    destruct (fst (try_clients _ _ _ _ _)); [discriminate|reflexivity].
  - intro Hfail.
    destruct (try_clients_all_fail E (fst (use_cookies E)) video_url configs
                initial_state Hfail) as (st & Hrun & _).
    now rewrite Hrun.
Qed.

(** X4. A response is returned only from the first successful attempt:
    whenever the request returns [r], some strategy [k] produced [r] from
    a zero exit whose stdout decoded to a dict, every earlier strategy
    failed, and exactly [k + 1] calls were made. *)
Theorem returned_only_from_first_success (configs : list Strategy) (r : Response) :
  outcome (extract_with E configs video_url) = Returned r ->
  exists k s cp items,
    nth_error configs k = Some s /\
    (forall j sj, j < k -> nth_error configs j = Some sj ->
                  succeeded (attempt_of E video_url j sj) = false) /\
    subprocess_run E k (args (invocation_for E video_url s)) 60 = Ret cp /\
    returncode cp = 0%Z /\
    json_loads E (stdout cp) = Ret (JDict items) /\
    JSONResponse E (JDict items) = Ret r /\
    length (invocations (final_state (extract_with E configs video_url))) = k + 1.
Proof.
  unfold extract_with. cbn [outcome final_state]. intro Hret.
  assert (Hsome : fst (try_clients E (fst (use_cookies E)) video_url configs
                         initial_state) = Some r).
  { destruct (fst (try_clients _ _ _ _ _)); [|discriminate].
    now inversion Hret. }
  destruct (try_clients_Some_inv E (fst (use_cookies E)) video_url configs
              initial_state Hsome) as (k & s & Hk & Hok & Hfail & Hlen).
  cbn [initial_state invocations length Nat.add] in Hok, Hfail, Hlen.
  destruct (attempt_SUCCESS_inv E _ _ _ _ Hok) as (cp & items & Hcall & Hrc & Hl & Hr).
  exists k, s, cp, items. repeat split; assumption.
Qed.

(** X5. Whenever the last attempt of an exhausted request was classified
    bot-detection, the detail of the final error is the remediation
    text. *)
Theorem bot_detection_last_gets_remediation
    (init : list Strategy) (s_last : Strategy) (d : Diagnostic) :
  (forall j sj, nth_error (init ++ [s_last]) j = Some sj ->
                succeeded (attempt_of E video_url j sj) = false) ->
  attempt_of E video_url (length init) s_last = Continue d ->
  category d = bot_detection ->
  outcome (extract_with E (init ++ [s_last]) video_url)
  = HTTPException 500 ("yt-dlp extraction failed: " ++ REMEDIATION)%string.
Proof.
  intros Hfail Hd Hcat.
  destruct (try_clients_exhausted E (fst (use_cookies E)) video_url init s_last Hfail)
    as (d' & Hd' & Hnone & Hlast & _).
  unfold attempt_of in Hd. rewrite Hd in Hd'. inversion Hd'; subst d'.
  assert (Hmsg : matches_bot_pattern (message d) = true).
  { destruct (attempt_Continue_inv E _ _ _ _ Hd)
      as [(cp & _ & _ & ->)|[(msg & ->)|[->|(msg & ->)]]]; try discriminate.
    rewrite (classify_failure_bot_message _ _ Hcat). apply bot_message_matches. }
  unfold extract_with. cbn [outcome]. rewrite Hnone, Hlast.
  rewrite (final_detail_truthy _ (matches_bot_pattern_truthy _ Hmsg)), Hmsg.
  reflexivity.
Qed.

(** X7. Every call is bounded by 60 seconds, so a request waits for the
    external tool at most 60 seconds per strategy of the catalog (300
    seconds for the built-in catalog). *)
Theorem time_budget_bounded (configs : list Strategy) :
  let calls := invocations (final_state (extract_with E configs video_url)) in
  Forall (fun i => timeout i = 60%Z) calls /\
  (time_budget calls <= 60 * Z.of_nat (length configs))%Z /\
  (time_budget (invocations (final_state (extract_video E video_url))) <= 300)%Z.
Proof.
  assert (Hgen : forall cfgs,
             let calls := invocations (final_state (extract_with E cfgs video_url)) in
             Forall (fun i => timeout i = 60%Z) calls /\
             (time_budget calls <= 60 * Z.of_nat (length cfgs))%Z).
  { intros cfgs calls.
    destruct (try_clients_shape E (fst (use_cookies E)) video_url cfgs initial_state)
      as (n & ds & Hn & Hc & _).
    cbn [initial_state invocations app] in Hc.
    unfold calls, extract_with. cbn [final_state]. rewrite Hc. split.
    - apply Forall_map, Forall_forall. reflexivity.
    - rewrite time_budget_prefix, length_firstn. lia. }
  intro calls. destruct (Hgen configs) as [Hall Hsum].
  split; [exact Hall|]. split; [exact Hsum|].
  destruct (Hgen player_configs) as [_ H5]. exact H5.
Qed.

(** X8. When [YTDLP_COOKIES_FILE] names a file that exists, the file is
    looked up once and every call of the request passes it with
    [--cookies]. *)
Theorem existing_cookie_file_is_passed (configs : list Strategy) (path : string) :
  os_getenv E COOKIES_ENV = Some path ->
  path <> ""%string ->
  os_path_exists E path = true ->
  let run := extract_with E configs video_url in
  path_checks run = [path] /\
  Forall (fun i => has_option "--cookies" path (args i) = true)
         (invocations (final_state run)).
Proof.
  intros Henv Hpath Hex run.
  assert (Huse : use_cookies E = (Some path, [path])).
  { unfold use_cookies. rewrite Henv.
    apply PyStrFacts.truthy_true in Hpath. now rewrite Hpath, Hex. }
  destruct (try_clients_shape E (fst (use_cookies E)) video_url configs initial_state)
    as (n & ds & _ & Hc & _).
  cbn [initial_state invocations app] in Hc.
  unfold run, extract_with. cbn [path_checks final_state].
  rewrite Hc, Huse. split; [reflexivity|].
  apply Forall_map, Forall_forall. intros s _.
  cbn [fst invocation_of args]. unfold build_args.
  do 5 apply has_option_app_r. apply has_option_here.
Qed.

End MoreProperties.

(* ================================================================= *)
(** ** Further properties of the classifier and of the command line *)

(** X9. What a diagnostic of a non-zero exit shows of the tool's output:
    bot-detection shows none of it; unsupported-content shows at most its
    first 200 characters after a fixed introduction; other shows at most
    its first 500 characters, and all of it when it is that short.  No
    further category arises. *)
Theorem classify_failure_message_bounds (name : string) (cp : CompletedProcess) :
  let error_msg := or_else (stderr cp) (or_else (stdout cp) "Unknown error") in
  let d := classify_failure name cp in
  strategy_label d = name /\
  match category d with
  | bot_detection =>
      message d = ("YouTube bot detection (tried " ++ name ++ ")")%string
  | unsupported_content =>
      exists shown,
        message d = ("Content not available for " ++ name ++ ": " ++ shown)%string /\
        String.length shown <= 200 /\
        startswith shown error_msg = true
  | other =>
      String.length (message d) <= 500 /\
      startswith (message d) error_msg = true /\
      (500 < String.length error_msg \/ message d = error_msg)
  | parse_error | timed_out => False
  end.
Proof.
  intros error_msg d. unfold d, classify_failure. fold error_msg.
  destruct (_ || _); [split; reflexivity|].
  destruct (_ || _); cbn [strategy_label category message]; split; try reflexivity.
  - exists (take 200 error_msg). split; [reflexivity|].
    split; [apply take_length|apply take_startswith].
  - split; [apply take_length|]. split; [apply take_startswith|].
    destruct (Nat.le_gt_cases (String.length error_msg) 500) as [Hle|Hgt];
      [right; now apply take_all|now left].
Qed.

(** X10. When stderr is not empty the classifier reads nothing else:
    stdout and the value of the exit status do not influence the
    diagnostic. *)
Theorem stderr_alone_decides
    (name err : string) (rc1 rc2 : Z) (out1 out2 : string) :
  err <> ""%string ->
  classify_failure name {| returncode := rc1; stdout := out1; stderr := err |}
  = classify_failure name {| returncode := rc2; stdout := out2; stderr := err |}.
Proof.
  intro Hne. apply PyStrFacts.truthy_true in Hne.
  unfold classify_failure, or_else. cbn [stderr stdout]. now rewrite Hne.
Qed.

(** X11. Cookies change a command line in one place only: the two
    arguments [--cookies <file>] are put directly before the URL. *)
Theorem cookies_go_before_url
    (executable cookies_file video_url : string) (s : Strategy) :
  build_args executable (Some cookies_file) video_url s
  = removelast (build_args executable None video_url s)
      ++ [ "--cookies"%string; cookies_file; video_url ].
Proof.
  unfold build_args.
  rewrite !app_assoc. rewrite app_nil_r, removelast_last.
  rewrite <- !app_assoc. reflexivity.
Qed.

(** X12. The five strategies of the catalog give five different command
    lines, whatever the executable, the cookies and the URL: no request
    runs the same command twice. *)
Theorem catalog_command_lines_differ
    (executable : string) (cookies : option string) (video_url : string) :
  NoDup (map (build_args executable cookies video_url) player_configs).
Proof.
  cbn [map player_configs].
  repeat (apply NoDup_cons; [cbn [In]; intros Hin|]); [..|apply NoDup_nil];
    repeat (destruct Hin as [Hin|Hin];
            [ first [ apply (f_equal (fun l => nth_error l 9)) in Hin;
                      cbn in Hin; discriminate Hin
                    | apply (f_equal (fun l => nth_error l 11)) in Hin;
                      cbn in Hin; discriminate Hin ]
            | ]);
    exact Hin.
Qed.

(* ================================================================= *)
(** ** Properties of the health probe and of the CORS setting *)

(** X13. [health_check] always answers with status "ok" and the Python
    version it was given; it reports the tool as available exactly when
    the version probe (timeout 5) completes with exit status zero; in
    every other case, timeouts and other exceptions included, the
    reported version is "Not available". *)
Theorem health_check_availability
    {Response : Type} (E : Env Response) (sys_version : string) :
  let h := health_check E sys_version in
  field "status" h = Some (JStr "ok") /\
  field "python_version" h = Some (JStr sys_version) /\
  (field "ytdlp_available" h = Some (JBool true) <->
   exists cp, subprocess_run E 0 (health_args (sys_executable E)) 5 = Ret cp /\
              returncode cp = 0%Z) /\
  (field "ytdlp_available" h = Some (JBool true) \/
   field "ytdlp_available" h = Some (JBool false) /\
   field "ytdlp_version" h = Some (JStr "Not available")).
Proof.
  intro h. unfold h, health_check.
  destruct (subprocess_run E 0 (health_args (sys_executable E)) 5) as [cp|e].
  - destruct (Z.eqb_spec (returncode cp) 0) as [Hrc|Hrc]; cbn.
    + repeat split; auto. intros _. now exists cp.
    + repeat split; auto; try discriminate.
      intros (cp' & Hcp & Hrc'). inversion Hcp; subst cp'. contradiction.
  - cbn. repeat split; auto; try discriminate.
    intros (cp' & Hcp & _). discriminate.
Qed.


(** X15. The CORS middleware always receives exactly one allowed origin,
    the value of [CORS_ORIGIN] as it is (never split at commas), and "*"
    when the variable is not set. *)
Theorem allow_origins_single
    {Response : Type} (E : Env Response) :
  allow_origins E = [ cors_origin E ] /\
  allow_origins E
  = [ match os_getenv E "CORS_ORIGIN" with Some v => v | None => "*"%string end ] /\
  length (allow_origins E) = 1.
Proof.
  assert (H : allow_origins E = [ cors_origin E ]).
  { unfold allow_origins.
    destruct (String.eqb_spec (cors_origin E) "*") as [Heq|Hne]; cbn [negb];
      [now rewrite Heq|reflexivity]. }
  rewrite H. repeat split.
Qed.

(** X16. Strategies after the first success do not matter: when a
    catalog makes the request return, the same catalog followed by any
    further strategies gives the same run, calls and diagnostics
    included. *)
Theorem later_strategies_irrelevant
    {Response : Type} (E : Env Response) (video_url : string)
    (configs more : list Strategy) (r : Response) :
  outcome (extract_with E configs video_url) = Returned r ->
  extract_with E (configs ++ more) video_url = extract_with E configs video_url.
Proof.
  unfold extract_with. cbn [outcome]. intro Hret.
  rewrite try_clients_app.
  destruct (try_clients E (fst (use_cookies E)) video_url configs initial_state)
    as [[r'|] st]; [reflexivity|discriminate].
Qed.

(* ================================================================= *)
(** ** The further properties at work *)

(** [mweb] answers after four refusals: the response comes from call 4. *)
Lemma returned_only_from_first_success_witness :
  exists k s cp items,
    nth_error player_configs k = Some s /\
    (forall j sj, j < k -> nth_error player_configs j = Some sj ->
                  succeeded (attempt_of Scenario.mweb_ok Scenario.url j sj) = false) /\
    subprocess_run Scenario.mweb_ok k
      (args (invocation_for Scenario.mweb_ok Scenario.url s)) 60 = Ret cp /\
    returncode cp = 0%Z /\
    json_loads Scenario.mweb_ok (stdout cp) = Ret (JDict items) /\
    JSONResponse Scenario.mweb_ok (JDict items) = Ret Scenario.payload /\
    length (invocations (final_state
              (extract_with Scenario.mweb_ok player_configs Scenario.url))) = k + 1.
Proof.
  apply (@returned_only_from_first_success json Scenario.mweb_ok Scenario.url
           player_configs Scenario.payload).
  vm_compute. reflexivity.
Defined.

(** Every client is asked to sign in; the last diagnostic is
    bot-detection and the detail is the remediation text. *)
Lemma bot_detection_last_gets_remediation_witness :
  outcome (extract_with Scenario.all_blocked
             (firstn 4 player_configs ++ [Scenario.mweb]) Scenario.url)
  = HTTPException 500 ("yt-dlp extraction failed: " ++ REMEDIATION)%string.
Proof.
  apply (@bot_detection_last_gets_remediation json Scenario.all_blocked Scenario.url
           (firstn 4 player_configs) Scenario.mweb
           {| strategy_label := "mweb"; category := bot_detection;
              message := "YouTube bot detection (tried mweb)" |}).
  - position_by_position.
  - vm_compute. reflexivity.
  - reflexivity.
Defined.

(** The cookies file is there: one lookup, and all three calls pass it. *)
Lemma existing_cookie_file_is_passed_witness :
  let run := extract_with Cases.cookies_present player_configs Scenario.url in
  path_checks run = ["/data/cookies.txt"%string] /\
  Forall (fun i => has_option "--cookies" "/data/cookies.txt" (args i) = true)
         (invocations (final_state run)).
Proof.
  apply (@existing_cookie_file_is_passed json Cases.cookies_present Scenario.url
           player_configs "/data/cookies.txt").
  - reflexivity.
  - discriminate.
  - reflexivity.
Defined.

(** The same stderr with two different stdouts and exit statuses. *)
Lemma stderr_alone_decides_witness :
  classify_failure "ios"
    {| returncode := 1; stdout := "not available on this app";
       stderr := "ERROR: unable to download" |}
  = classify_failure "ios"
      {| returncode := 2; stdout := "Sign in to confirm";
         stderr := "ERROR: unable to download" |}.
Proof.
  apply (@stderr_alone_decides "ios" "ERROR: unable to download" 1 2
           "not available on this app" "Sign in to confirm").
  discriminate.
Defined.

(** The probe prints a version and a line end; the report has the version
    without it. *)
Example health_report_of_a_working_probe :
  health_check Cases.probe_ok "3.11.9"
  = JDict [ ("status"%string, JStr "ok");
            ("ytdlp_available"%string, JBool true);
            ("ytdlp_version"%string, JStr "2024.08.06");
            ("python_version"%string, JStr "3.11.9") ].
Proof. reflexivity. Qed.

(** Two origins in one variable stay one entry. *)
Example two_origins_stay_one_entry :
  allow_origins Cases.two_origins = [ "https://a.example,https://b.example"%string ].
Proof. reflexivity. Qed.

(** [mweb] answers; a sixth strategy appended to the catalog is never
    looked at. *)
Lemma later_strategies_irrelevant_witness :
  extract_with Scenario.mweb_ok (player_configs ++ [Scenario.android]) Scenario.url
  = extract_with Scenario.mweb_ok player_configs Scenario.url.
Proof.
  apply (@later_strategies_irrelevant json Scenario.mweb_ok Scenario.url
           player_configs [Scenario.android] Scenario.payload).
  vm_compute. reflexivity.
Defined.
